(** * Transfinite interpolation (Gordon-Hall) mesh generation

    A shallow embedding of the interpolation cell of the notebook
    [02_Mesh_generation/lecture_notebooks/2_Quad_mesh_TFI_intro.ipynb]
    ("# Transfinite interpolation"), which the specification calls
    [generate_mesh(bottom, top, left, right, nx, nz) -> (X, Z)].

    The embedding keeps the program text and puts the number type behind
    the interface [Scalar].  The cell computes with NumPy doubles: its
    arithmetic is the instance [Float_Scalar], IEEE 754 binary64, which
    rounds and overflows.  What is proved for every instance of the
    interface (shape, loop order, determinism, exceptions, the value
    stored at a node) holds of the cell as it runs.  The instance
    [Qc_Scalar] evaluates the same program text in exact rational
    arithmetic; what is proved there is an identity of the blending
    formula over the rationals, which the doubles of the cell follow up to
    rounding only, as the counterexamples at binary64 show. *)

From Stdlib Require Import PrimFloat SpecFloat FloatOps.
From Stdlib Require Import ZArith QArith Qcanon Lia.
From stdpp Require Import base list.

(** ** Exceptions and results *)

Inductive exn : Type :=
  | ValueError      (* raised by NumPy on a negative sample count or dimension *)
  | IndexError      (* raised by an index out of range *)
  | EvalError (code : nat). (* raised by a boundary curve, with the curve's own tag *)

Inductive res (A : Type) : Type :=
  | Ok (a : A)
  | Raise (e : exn).
Arguments Ok {A} a.
Arguments Raise {A} e.

Definition is_raise {A : Type} (r : res A) : Prop :=
  match r with
  | Ok _ => False
  | Raise _ => True
  end.

(** ** The number interface

    What the cell needs of its numbers: integer literals ([0], [1], and the
    counters of [np.arange]), [+], [-], [*] and the [/] of [np.linspace]. *)

Class Scalar (T : Type) : Type := {
  of_Z : Z -> T;
  sadd : T -> T -> T;
  ssub : T -> T -> T;
  smul : T -> T -> T;
  sdiv : T -> T -> T
}.

Declare Scope scalar_scope.
Delimit Scope scalar_scope with S.
Infix "+" := sadd : scalar_scope.
Infix "-" := ssub : scalar_scope.
Infix "*" := smul : scalar_scope.
Infix "/" := sdiv : scalar_scope.

(** IEEE 754 binary64 with round to nearest even: the [float64] of NumPy
    and the [float] of Python.  An integer is converted by correct
    rounding. *)
Definition float_of_Z (z : Z) : float :=
  SF2Prim (binary_normalize prec emax z 0 false).

#[export] Instance Float_Scalar : Scalar float := {
  of_Z := float_of_Z;
  sadd := PrimFloat.add;
  ssub := PrimFloat.sub;
  smul := PrimFloat.mul;
  sdiv := PrimFloat.div
}.

(** Exact rational arithmetic, without rounding and without overflow: not
    the arithmetic of the cell, but the one in which the blending formula
    is read as a polynomial over the rationals. *)
#[export] Instance Qc_Scalar : Scalar Qc := {
  of_Z := fun z => Q2Qc (inject_Z z);
  sadd := Qcplus;
  ssub := Qcminus;
  smul := Qcmult;
  sdiv := Qcdiv
}.

Section Program.

Context {T : Type} `{Scalar T}.

(** A point [(x, z)] of the physical domain; [xb[0]] is [fst], [xb[1]] is
    [snd]. *)
Definition point : Type := (T * T)%type.

(** A boundary curve is any callable of one parameter; it may raise. *)
Definition curve : Type := T -> res point.

(** A curve that never raises. *)
Definition total (f : T -> point) : curve := fun t => Ok (f t).

(** A two-dimensional array, as its list of rows. *)
#[local] Abbreviation matrix := (list (list T)).

(** ** The NumPy operations the cell calls *)

(** [np.arange(0, num)] as scalars. *)
Definition arange (n : nat) : list T :=
  map (fun k => of_Z (Z.of_nat k)) (seq 0 n).

(** [np.linspace(start, stop, num=num)], end point included: a negative
    [num] raises [ValueError]; otherwise [num] samples
    [k * step + start] with [step = (stop - start) / (num - 1)], the last
    one set to [stop]; with fewer than two samples the step is undefined
    and the counters are scaled by [stop - start]. *)
Definition linspace_samples (start stop : T) (num : Z) : list T :=
  let n := Z.to_nat num in
  let delta := (stop - start)%S in
  let y := arange n in
  let y :=
    if (1 <? num)%Z
    then let step := (delta / of_Z (num - 1))%S in
         map (fun v => (v * step)%S) y
    else map (fun v => (v * delta)%S) y in
  let y := map (fun v => (v + start)%S) y in
  if (1 <? num)%Z then <[(n - 1)%nat := stop]> y else y.

Definition linspace (start stop : T) (num : Z) : res (list T) :=
  if (num <? 0)%Z then Raise ValueError
  else Ok (linspace_samples start stop num).

(** [np.zeros((n, m))]. *)
Definition zeros (n m : Z) : res matrix :=
  if ((n <? 0) || (m <? 0))%Z then Raise ValueError
  else Ok (replicate (Z.to_nat n) (replicate (Z.to_nat m) (of_Z 0))).

(** [range(n)]: empty for a negative [n]. *)
Definition range (n : Z) : list nat := seq 0 (Z.to_nat n).

(** [a[i]] on a one-dimensional array, for an index that is not negative. *)
Definition getitem (a : list T) (i : nat) : res T :=
  match a !! i with
  | Some v => Ok v
  | None => Raise IndexError
  end.

(** [A[i,j] = v] on a two-dimensional array. *)
Definition setitem2 (A : matrix) (i j : nat) (v : T) : res matrix :=
  match A !! i with
  | Some row =>
      if (j <? length row)%nat then Ok (<[i := <[j := v]> row]> A)
      else Raise IndexError
  | None => Raise IndexError
  end.

(** ** The notebook's global arrays and the monad of the cell

    [X] and [Z] are module-level arrays written in place.  An exception
    leaves in them whatever was written before it. *)

Record store : Type := mkStore { meshX : matrix; meshZ : matrix }.

Definition M (A : Type) : Type := store -> res A * store.

Definition ret {A : Type} (a : A) : M A := fun s => (Ok a, s).

Definition bind {A B : Type} (m : M A) (k : A -> M B) : M B :=
  fun s =>
    match m s with
    | (Ok a, s') => k a s'
    | (Raise e, s') => (Raise e, s')
    end.

Definition lift {A : Type} (r : res A) : M A := fun s => (r, s).

#[local] Notation "x <- m ;; k" := (bind m (fun x => k))
  (at level 100, m at next level, right associativity).

(** [X = v] and [Z = v]: rebinding the global names. *)
Definition assignX (v : matrix) : M unit :=
  fun s => (Ok tt, mkStore v (meshZ s)).
Definition assignZ (v : matrix) : M unit :=
  fun s => (Ok tt, mkStore (meshX s) v).

(** [X[i,j] = v] and [Z[i,j] = v]. *)
Definition setX (i j : nat) (v : T) : M unit :=
  fun s =>
    match setitem2 (meshX s) i j v with
    | Ok X' => (Ok tt, mkStore X' (meshZ s))
    | Raise e => (Raise e, s)
    end.
Definition setZ (i j : nat) (v : T) : M unit :=
  fun s =>
    match setitem2 (meshZ s) i j v with
    | Ok Z' => (Ok tt, mkStore (meshX s) Z')
    | Raise e => (Raise e, s)
    end.

(** [for a in l: body(a)]. *)
Fixpoint for_ {A : Type} (l : list A) (body : A -> M unit) : M unit :=
  match l with
  | [] => ret tt
  | a :: l' => _ <- body a ;; for_ l' body
  end.

(** What a run hands back: the two arrays when it completed, the
    exception otherwise. *)
Definition outcome (r : res unit * store) : res (matrix * matrix) :=
  match r with
  | (Ok _, s) => Ok (meshX s, meshZ s)
  | (Raise e, _) => Raise e
  end.

(** ** The cell *)

Section Cell.

Variables Xb Xt Xl Xr : curve.

(** The body of the inner loop, from [# evaluate parametric curves] to the
    assignment of [Z[i,j]]. *)
Definition node_body (i j : nat) (Xi Eta : T) : M unit :=
  xb <- lift (Xb Xi) ;;
  xb0 <- lift (Xb (of_Z 0)) ;;
  xb1 <- lift (Xb (of_Z 1)) ;;
  xt <- lift (Xt Xi) ;;
  xt0 <- lift (Xt (of_Z 0)) ;;
  xt1 <- lift (Xt (of_Z 1)) ;;
  xl <- lift (Xl Eta) ;;
  xr <- lift (Xr Eta) ;;
  _ <- setX i j
    ((of_Z 1 - Eta) * fst xb + Eta * fst xt + (of_Z 1 - Xi) * fst xl + Xi * fst xr
     - (Xi * Eta * fst xt1 + Xi * (of_Z 1 - Eta) * fst xb1
        + Eta * (of_Z 1 - Xi) * fst xt0
        + (of_Z 1 - Xi) * (of_Z 1 - Eta) * fst xb0))%S ;;
  setZ i j
    ((of_Z 1 - Eta) * snd xb + Eta * snd xt + (of_Z 1 - Xi) * snd xl + Xi * snd xr
     - (Xi * Eta * snd xt1 + Xi * (of_Z 1 - Eta) * snd xb1
        + Eta * (of_Z 1 - Xi) * snd xt0
        + (of_Z 1 - Xi) * (of_Z 1 - Eta) * snd xb0))%S.

(** [# loop over cells]. *)
Definition tfi_loop (xi eta : list T) (NX NZ : Z) : M unit :=
  for_ (range NX) (fun i =>
    Xi <- lift (getitem xi i) ;;
    for_ (range NZ) (fun j =>
      Eta <- lift (getitem eta j) ;;
      node_body i j Xi Eta)).

(** The whole cell.  ([np.meshgrid(xi, eta)] only feeds the plot of the
    logical grid and is left out.) *)
Definition tfi_cell (NX NZ : Z) : M unit :=
  xi <- lift (linspace (of_Z 0) (of_Z 1) NX) ;;
  eta <- lift (linspace (of_Z 0) (of_Z 1) NZ) ;;
  X0 <- lift (zeros NX NZ) ;;
  _ <- assignX X0 ;;
  Z0 <- lift (zeros NX NZ) ;;
  _ <- assignZ Z0 ;;
  tfi_loop xi eta NX NZ.

(** The cell as the function of the specification: run it in a fresh
    name space and hand back the two arrays when it completes. *)
Definition generate_mesh (NX NZ : Z) : res (matrix * matrix) :=
  outcome (tfi_cell NX NZ (mkStore [] [])).

End Cell.

(** ** The specification's reading of the cell *)

(** The blending formula as the specification writes it, for a component
    [c] of a point and curves that never raise. *)
Definition gordon_hall (c : point -> T) (bottom top left right : T -> point)
    (xi eta : T) : T :=
  ((of_Z 1 - eta) * c (bottom xi) + eta * c (top xi)
   + (of_Z 1 - xi) * c (left eta) + xi * c (right eta)
   - (xi * eta * c (top (of_Z 1)) + xi * (of_Z 1 - eta) * c (bottom (of_Z 1))
      + eta * (of_Z 1 - xi) * c (top (of_Z 0))
      + (of_Z 1 - xi) * (of_Z 1 - eta) * c (bottom (of_Z 0))))%S.

(** The mesh as a pure map over the logical grid: entry [(i,j)] is a
    function of [xi[i]], [eta[j]] and the curves alone. *)
Definition mesh_map (c : point -> T) (bottom top left right : T -> point)
    (xi eta : list T) : matrix :=
  map (fun Xi => map (fun Eta => gordon_hall c bottom top left right Xi Eta) eta) xi.

(** An array has shape [(n, m)]. *)
Definition shape (n m : nat) (A : matrix) : Prop :=
  length A = n /\ Forall (fun row => length row = m) A.

(** [A[i,j]] read as an option. *)
Definition entry (A : matrix) (i j : nat) : option T :=
  match A !! i with
  | Some row => row !! j
  | None => None
  end.

Definition store_shape (n m : nat) (s : store) : Prop :=
  shape n m (meshX s) /\ shape n m (meshZ s).

(** A curve made total by a default point where it raises. *)
Definition defaulted (f : curve) : T -> point :=
  fun u =>
    match f u with
    | Ok p => p
    | Raise _ => (of_Z 0, of_Z 0)
    end.

(** The logical grid of a call. *)
Definition grid (num : Z) : list T := linspace_samples (of_Z 0) (of_Z 1) num.

(** All index pairs, in the order of the nested loop. *)
Definition nodes (NX NZ : Z) : list (nat * nat) :=
  flat_map (fun i => map (fun j => (i, j)) (range NZ)) (range NX).

(** One iteration for the node [p], self-contained. *)
Definition node_at (Xb Xt Xl Xr : curve) (xi eta : list T) (p : nat * nat) : M unit :=
  Xi <- lift (getitem xi (fst p)) ;;
  Eta <- lift (getitem eta (snd p)) ;;
  node_body Xb Xt Xl Xr (fst p) (snd p) Xi Eta.

(** The cell with its nested loop replaced by a visit of the nodes in the
    order [order]. *)
Definition tfi_cell_in_order (Xb Xt Xl Xr : curve) (order : list (nat * nat))
    (NX NZ : Z) : M unit :=
  xi <- lift (linspace (of_Z 0) (of_Z 1) NX) ;;
  eta <- lift (linspace (of_Z 0) (of_Z 1) NZ) ;;
  X0 <- lift (zeros NX NZ) ;;
  _ <- assignX X0 ;;
  Z0 <- lift (zeros NX NZ) ;;
  _ <- assignZ Z0 ;;
  for_ order (node_at Xb Xt Xl Xr xi eta).

Definition generate_mesh_in_order (Xb Xt Xl Xr : curve) (order : list (nat * nat))
    (NX NZ : Z) : res (matrix * matrix) :=
  outcome (tfi_cell_in_order Xb Xt Xl Xr order NX NZ (mkStore [] [])).

(** Some curve evaluation of the node [(Xi, Eta)] raises. *)
Definition raises_at (Xb Xt Xl Xr : curve) (Xi Eta : T) : Prop :=
  is_raise (Xb Xi) \/ is_raise (Xb (of_Z 0)) \/ is_raise (Xb (of_Z 1)) \/
  is_raise (Xt Xi) \/ is_raise (Xt (of_Z 0)) \/ is_raise (Xt (of_Z 1)) \/
  is_raise (Xl Eta) \/ is_raise (Xr Eta).

(** The node [(i,j)] of a mesh. *)
Definition mesh_node (XZ : matrix * matrix) (i j : nat) : option point :=
  match entry (fst XZ) i j, entry (snd XZ) i j with
  | Some x, Some z => Some (x, z)
  | _, _ => None
  end.

End Program.

Arguments store T : clear implicits.
Abbreviation matrix T := (list (list T)).
Arguments point T : clear implicits.
Arguments curve T : clear implicits.

(** ** Exact arithmetic: samples, unit square, corner consistency, affine maps *)

(** The uniform sample [k / (num - 1)]. *)
Definition uniform (num : Z) (k : nat) : Qc :=
  (of_Z (Z.of_nat k) / of_Z (num - 1))%S.

(** The four edges of the unit square. *)
Definition square_bottom : Qc -> point Qc := fun xi => (xi, 0%Qc).
Definition square_top : Qc -> point Qc := fun xi => (xi, 1%Qc).
Definition square_left : Qc -> point Qc := fun eta => (0%Qc, eta).
Definition square_right : Qc -> point Qc := fun eta => (1%Qc, eta).




(** ** Data of the concrete calls *)


(** A right curve that raises at the upper end of its parameter range. *)
Definition right_raising_at_one : curve Qc :=
  fun eta => if Qeq_bool eta 1 then Raise (EvalError 0) else Ok (1%Qc, eta).

(** A curve that raises wherever it is called. *)
Definition always_raising : curve Qc := fun _ => Raise (EvalError 1).

(** The bottom edge of the unit square, defined on [0,1] only. *)
Definition bottom_inside_unit : curve Qc :=
  fun xi =>
    if Qle_bool 0 xi && Qle_bool xi 1 then Ok (xi, 0%Qc) else Raise (EvalError 2).

(** ** The rest of the cell: the value of a node, the logical grid arrays *)

Definition res_bind {A B : Type} (r : res A) (k : A -> res B) : res B :=
  match r with
  | Ok a => k a
  | Raise e => Raise e
  end.

Section NodeValue.

Context {T : Type} `{Scalar T}.

(** What the loop body computes for a node before it writes anything: the
    eight curve evaluations in the order of the cell, then the two
    blended components; the first evaluation that raises decides. *)
Definition node_value (Xb Xt Xl Xr : curve T) (Xi Eta : T) : res (point T) :=
  res_bind (Xb Xi) (fun xb =>
  res_bind (Xb (of_Z 0)) (fun xb0 =>
  res_bind (Xb (of_Z 1)) (fun xb1 =>
  res_bind (Xt Xi) (fun xt =>
  res_bind (Xt (of_Z 0)) (fun xt0 =>
  res_bind (Xt (of_Z 1)) (fun xt1 =>
  res_bind (Xl Eta) (fun xl =>
  res_bind (Xr Eta) (fun xr =>
  Ok (((of_Z 1 - Eta) * fst xb + Eta * fst xt + (of_Z 1 - Xi) * fst xl + Xi * fst xr
       - (Xi * Eta * fst xt1 + Xi * (of_Z 1 - Eta) * fst xb1
          + Eta * (of_Z 1 - Xi) * fst xt0
          + (of_Z 1 - Xi) * (of_Z 1 - Eta) * fst xb0))%S,
      ((of_Z 1 - Eta) * snd xb + Eta * snd xt + (of_Z 1 - Xi) * snd xl + Xi * snd xr
       - (Xi * Eta * snd xt1 + Xi * (of_Z 1 - Eta) * snd xb1
          + Eta * (of_Z 1 - Xi) * snd xt0
          + (of_Z 1 - Xi) * (of_Z 1 - Eta) * snd xb0))%S))))))))).

(** [xi1, eta1 = np.meshgrid(xi, eta)], with NumPy's default Cartesian
    indexing: both arrays have one row per sample of [eta] and one column
    per sample of [xi]; [xi1[j,i] = xi[i]] and [eta1[j,i] = eta[j]]. *)
Definition meshgrid (xi eta : list T) : matrix T * matrix T :=
  (map (fun _ => xi) eta, map (fun Eta => map (fun _ => Eta) xi) eta).

(** The sample [k] of [np.linspace(0.0, 1.0, num)] for two samples or
    more, as NumPy computes it: the counter times the step
    [(1 - 0) / (num - 1)], plus the start, each operation in the arithmetic
    of the cell; the last sample is the end point itself. *)
Definition linspace_sample (num : Z) (k : nat) : T :=
  if (k =? Z.to_nat num - 1)%nat then of_Z 1
  else (of_Z (Z.of_nat k) * ((of_Z 1 - of_Z 0) / of_Z (num - 1)) + of_Z 0)%S.

(** The four edges of the unit square, in any arithmetic. *)
Definition unit_bottom : T -> point T := fun xi => (xi, of_Z 0).
Definition unit_top : T -> point T := fun xi => (xi, of_Z 1).
Definition unit_left : T -> point T := fun eta => (of_Z 0, eta).
Definition unit_right : T -> point T := fun eta => (of_Z 1, eta).

End NodeValue.

(** ** Binary64: the data of the calls in doubles *)










#[local] Notation "x <- m ;; k" := (bind m (fun x => k))
  (at level 100, m at next level, right associativity).

(** * The cell for any number type *)

Section Structure.

Context {T : Type} `{Scalar T}.

Implicit Types (A : matrix T) (s : store T) (xi eta : list T).

(** ** Loops *)

Lemma for_app {B : Type} (l1 l2 : list B) (f : B -> M unit) s :
  for_ (l1 ++ l2) f s = (_ <- for_ l1 f ;; for_ l2 f) s.
Proof.
  revert s. induction l1 as [|a l1 IH]; intros s; [reflexivity|].
  cbn. unfold bind. destruct (f a s) as [[[]|e] s1]; [|done].
  rewrite IH. done.
Qed.

Lemma for_ext {B : Type} (l : list B) (f g : B -> M unit) s :
  (forall a s', a ∈ l -> f a s' = g a s') -> for_ l f s = for_ l g s.
Proof.
  revert s. induction l as [|a l IH]; intros s Hfg; cbn; [done|].
  unfold bind. rewrite (Hfg a s) by apply list_elem_of_here.
  destruct (g a s) as [[[]|e] s1]; [|done].
  apply IH. intros b s' Hb. apply Hfg. by apply list_elem_of_further.
Qed.

Lemma for_map {B C : Type} (h : B -> C) (l : list B) (f : C -> M unit) s :
  for_ (map h l) f s = for_ l (fun a => f (h a)) s.
Proof.
  revert s. induction l as [|a l IH]; intros s; cbn; [done|].
  unfold bind. destruct (f (h a) s) as [[[]|e] s1]; [|done]. apply IH.
Qed.

(** A loop raises as soon as one of its iterations is bound to raise. *)
Lemma for_raises {B : Type} (l : list B) (f : B -> M unit) (a : B) :
  a ∈ l ->
  (forall s, is_raise (fst (f a s))) ->
  forall s, is_raise (fst (for_ l f s)).
Proof.
  intros Ha Hf. induction l as [|b l IH]; intros s.
  - by apply elem_of_nil in Ha.
  - cbn. unfold bind. destruct (f b s) as [[[]|e] s1] eqn:E; [|done].
    apply elem_of_cons in Ha as [->|Ha].
    + specialize (Hf s). by rewrite E in Hf.
    + by apply IH.
Qed.

(** ** Arrays *)

Lemma lookup_map {B C : Type} (f : B -> C) (l : list B) (i : nat) :
  map f l !! i = f <$> l !! i.
Proof. exact (list_lookup_fmap f l i). Qed.

Lemma shape_row n m A i :
  shape n m A -> (i < n)%nat -> exists row, A !! i = Some row /\ length row = m.
Proof.
  intros [Hn Hm] Hi. destruct (lookup_lt_is_Some_2 A i) as [row Hrow]; [lia|].
  exists row. split; [done|]. by eapply (proj1 (Forall_lookup _ _) Hm).
Qed.

(** Two arrays of one shape with the same entries are equal. *)
Lemma matrix_ext n m A1 A2 :
  shape n m A1 -> shape n m A2 ->
  (forall i j, (i < n)%nat -> (j < m)%nat -> entry A1 i j = entry A2 i j) ->
  A1 = A2.
Proof.
  intros H1 H2 Hent. apply list_eq. intros i.
  destruct (decide (i < n)%nat) as [Hi|Hi].
  - destruct (shape_row _ _ _ _ H1 Hi) as (r1 & E1 & L1).
    destruct (shape_row _ _ _ _ H2 Hi) as (r2 & E2 & L2).
    rewrite E1, E2. f_equal. apply list_eq. intros j.
    destruct (decide (j < m)%nat) as [Hj|Hj].
    + specialize (Hent i j Hi Hj). unfold entry in Hent. by rewrite E1, E2 in Hent.
    + rewrite !(proj2 (lookup_ge_None _ _)); [done|lia|lia].
  - destruct H1 as [H1 _], H2 as [H2 _].
    rewrite !(proj2 (lookup_ge_None _ _)); [done|lia|lia].
Qed.

Lemma setitem2_spec n m A i j (v : T) :
  shape n m A -> (i < n)%nat -> (j < m)%nat ->
  exists A', setitem2 A i j v = Ok A' /\ shape n m A' /\
    forall i' j', entry A' i' j' =
      if decide (i' = i /\ j' = j) then Some v else entry A i' j'.
Proof.
  intros HA Hi Hj. destruct (shape_row _ _ _ _ HA Hi) as (row & Erow & Lrow).
  destruct HA as [Hn Hm].
  exists (<[i := <[j := v]> row]> A). unfold setitem2. rewrite Erow.
  rewrite (proj2 (Nat.ltb_lt _ _)) by lia. split; [done|]. split.
  - split; [by rewrite length_insert|].
    apply Forall_insert; [done|]. by rewrite length_insert.
  - intros i' j'. unfold entry. destruct (decide (i' = i)) as [->|Hne].
    + rewrite list_lookup_insert_eq by lia. rewrite Erow.
      destruct (decide (j' = j)) as [->|Hne].
      * rewrite list_lookup_insert_eq by lia. by rewrite decide_True.
      * rewrite list_lookup_insert_ne by done. rewrite decide_False; [done|tauto].
    + rewrite list_lookup_insert_ne by done. rewrite decide_False; [done|tauto].
Qed.

Lemma zeros_shape (NX NZ : Z) :
  (0 <= NX)%Z -> (0 <= NZ)%Z ->
  exists A0 : matrix T, zeros NX NZ = Ok A0 /\ shape (Z.to_nat NX) (Z.to_nat NZ) A0.
Proof.
  intros HX HZ. unfold zeros.
  rewrite (proj2 (Z.ltb_ge _ _) HX), (proj2 (Z.ltb_ge _ _) HZ). cbn.
  eexists. split; [done|]. split; [by rewrite length_replicate|].
  apply Forall_replicate. by rewrite length_replicate.
Qed.

Lemma mesh_map_shape c (b t l r : T -> point T) xi eta :
  shape (length xi) (length eta) (mesh_map c b t l r xi eta).
Proof.
  unfold mesh_map. split; [by rewrite length_map|].
  apply Forall_forall. intros row Hrow. apply list_elem_of_In, in_map_iff in Hrow.
  destruct Hrow as (Xi & <- & _). by rewrite length_map.
Qed.

Lemma linspace_samples_length (start stop : T) (num : Z) :
  length (linspace_samples start stop num) = Z.to_nat num.
Proof.
  unfold linspace_samples, arange.
  destruct (1 <? num)%Z; rewrite ?length_insert, !length_map, length_seq; done.
Qed.

Lemma mesh_map_grid_shape c (b t l r : T -> point T) (NX NZ : Z) :
  shape (Z.to_nat NX) (Z.to_nat NZ) (mesh_map c b t l r (grid NX) (grid NZ)).
Proof.
  pose proof (mesh_map_shape c b t l r (grid NX) (grid NZ)) as Hs.
  unfold grid in Hs at 1 2. by rewrite !linspace_samples_length in Hs.
Qed.

Lemma entry_mesh_map c (b t l r : T -> point T) xi eta i j Xi Eta :
  xi !! i = Some Xi -> eta !! j = Some Eta ->
  entry (mesh_map c b t l r xi eta) i j = Some (gordon_hall c b t l r Xi Eta).
Proof.
  intros Hi Hj. unfold entry, mesh_map. rewrite lookup_map, Hi. cbn.
  by rewrite lookup_map, Hj.
Qed.


(** ** The nested loop visits the nodes one by one *)

Lemma bind_congr {B C : Type} (m1 m2 : M B) (k1 k2 : B -> M C) s :
  m1 s = m2 s -> (forall a s', k1 a s' = k2 a s') ->
  (a <- m1 ;; k1 a) s = (a <- m2 ;; k2 a) s.
Proof.
  intros Hm Hk. unfold bind. rewrite Hm.
  destruct (m2 s) as [[a|e] s1]; [apply Hk|done].
Qed.

Lemma getitem_Some (a : list T) i v : a !! i = Some v -> getitem a i = Ok v.
Proof. intros E. unfold getitem. by rewrite E. Qed.

Lemma elem_of_range (n : Z) i : i ∈ range n <-> (i < Z.to_nat n)%nat.
Proof. unfold range. rewrite elem_of_seq. lia. Qed.

Lemma elem_of_nodes (NX NZ : Z) i j :
  (i, j) ∈ nodes NX NZ <-> (i < Z.to_nat NX)%nat /\ (j < Z.to_nat NZ)%nat.
Proof.
  unfold nodes. rewrite list_elem_of_In, in_flat_map. split.
  - intros (a & Ha & Hin). apply in_map_iff in Hin as (c & Hc & Hin).
    injection Hc as -> ->.
    apply list_elem_of_In, elem_of_range in Ha.
    apply list_elem_of_In, elem_of_range in Hin. done.
  - intros [Hi Hj]. exists i. split.
    + by apply list_elem_of_In, elem_of_range.
    + apply in_map_iff. exists j. split; [done|].
      by apply list_elem_of_In, elem_of_range.
Qed.

Section AnyCurves.

Variables Xb Xt Xl Xr : curve T.

Lemma node_at_lookup xi eta i j Xi Eta s :
  xi !! i = Some Xi -> eta !! j = Some Eta ->
  node_at Xb Xt Xl Xr xi eta (i, j) s = node_body Xb Xt Xl Xr i j Xi Eta s.
Proof.
  intros EXi EEta. unfold node_at, bind, lift. cbn [fst snd].
  by rewrite (getitem_Some _ _ _ EXi), (getitem_Some _ _ _ EEta).
Qed.

(** The row of the outer loop is the visit of the nodes of that row. *)
Lemma inner_loop_is_row xi eta (NZ : Z) i Xi s :
  xi !! i = Some Xi ->
  (Xi' <- lift (getitem xi i) ;;
   for_ (range NZ) (fun j =>
     Eta <- lift (getitem eta j) ;; node_body Xb Xt Xl Xr i j Xi' Eta)) s
  = for_ (map (fun j => (i, j)) (range NZ)) (node_at Xb Xt Xl Xr xi eta) s.
Proof.
  intros Hi. rewrite for_map. unfold bind at 1, lift at 1.
  rewrite (getitem_Some _ _ _ Hi). apply for_ext. intros j s' _.
  unfold node_at. cbn [fst snd]. unfold bind at 3, lift at 3.
  by rewrite (getitem_Some _ _ _ Hi).
Qed.

Lemma nested_is_flat xi eta (NX NZ : Z) s :
  length xi = Z.to_nat NX ->
  tfi_loop Xb Xt Xl Xr xi eta NX NZ s
  = for_ (nodes NX NZ) (node_at Xb Xt Xl Xr xi eta) s.
Proof.
  intros Hlen. unfold tfi_loop, nodes.
  assert (Hall : Forall (fun i => (i < length xi)%nat) (range NX)).
  { apply Forall_forall. intros i Hi. apply elem_of_range in Hi. lia. }
  revert s. induction Hall as [|i rest Hi _ IH]; intros s; [done|].
  cbn [flat_map for_]. rewrite for_app.
  destruct (lookup_lt_is_Some_2 xi i Hi) as [Xi EXi].
  apply bind_congr; [|intros _ s'; apply IH].
  by apply inner_loop_is_row with (Xi := Xi).
Qed.

(** With counts that are not negative the set-up of the cell succeeds
    and the loop starts on two zero arrays of the requested shape,
    whatever the name space held before. *)
Lemma linspace_ok (start stop : T) (num : Z) :
  (0 <= num)%Z -> linspace start stop num = Ok (linspace_samples start stop num).
Proof. intros Hn. unfold linspace. by rewrite (proj2 (Z.ltb_ge _ _) Hn). Qed.

Lemma linspace_negative (start stop : T) (num : Z) :
  (num < 0)%Z -> linspace start stop num = Raise ValueError.
Proof. intros Hn. unfold linspace. by rewrite (proj2 (Z.ltb_lt _ _) Hn). Qed.

Lemma tfi_cell_enters (NX NZ : Z) :
  (0 <= NX)%Z -> (0 <= NZ)%Z ->
  exists A0 : matrix T,
    zeros NX NZ = Ok A0 /\
    shape (Z.to_nat NX) (Z.to_nat NZ) A0 /\
    forall s, tfi_cell Xb Xt Xl Xr NX NZ s
              = tfi_loop Xb Xt Xl Xr (grid NX) (grid NZ) NX NZ (mkStore A0 A0).
Proof.
  intros HX HZ. destruct (zeros_shape NX NZ HX HZ) as (A0 & E0 & H0).
  exists A0. split; [done|]. split; [done|]. intros s.
  unfold tfi_cell, bind, lift, assignX, assignZ.
  rewrite !linspace_ok, E0 by done. done.
Qed.

Lemma tfi_cell_in_order_enters (order : list (nat * nat)) (NX NZ : Z) :
  (0 <= NX)%Z -> (0 <= NZ)%Z ->
  exists A0 : matrix T,
    shape (Z.to_nat NX) (Z.to_nat NZ) A0 /\
    forall s, tfi_cell_in_order Xb Xt Xl Xr order NX NZ s
              = for_ order (node_at Xb Xt Xl Xr (grid NX) (grid NZ)) (mkStore A0 A0).
Proof.
  intros HX HZ. destruct (zeros_shape NX NZ HX HZ) as (A0 & E0 & H0).
  exists A0. split; [done|]. intros s.
  unfold tfi_cell_in_order, bind, lift, assignX, assignZ.
  rewrite !linspace_ok, E0 by done. done.
Qed.

(** A negative count stops the cell in [np.linspace], before any array
    exists, and leaves the name space as it was. *)
Lemma tfi_cell_negative (NX NZ : Z) s :
  (NX < 0 \/ NZ < 0)%Z -> tfi_cell Xb Xt Xl Xr NX NZ s = (Raise ValueError, s).
Proof.
  intros Hneg. unfold tfi_cell, bind, lift.
  destruct (Z.lt_ge_cases NX 0) as [HX|HX].
  - by rewrite (linspace_negative _ _ NX HX).
  - rewrite (linspace_ok _ _ NX HX).
    rewrite (linspace_negative _ _ NZ) by lia. done.
Qed.

(** A node at which some curve raises stops the loop. *)
Lemma node_body_raises i j Xi Eta s :
  raises_at Xb Xt Xl Xr Xi Eta ->
  is_raise (fst (node_body Xb Xt Xl Xr i j Xi Eta s)).
Proof.
  unfold raises_at, node_body, bind, lift. intros Hr.
  destruct (Xb Xi); [|done]. destruct (Xb (of_Z 0)); [|done].
  destruct (Xb (of_Z 1)); [|done]. destruct (Xt Xi); [|done].
  destruct (Xt (of_Z 0)); [|done]. destruct (Xt (of_Z 1)); [|done].
  destruct (Xl Eta); [|done]. destruct (Xr Eta); [|done].
  cbn in Hr. tauto.
Qed.

Lemma tfi_loop_raises xi eta (NX NZ : Z) i j Xi Eta :
  length xi = Z.to_nat NX ->
  (j < Z.to_nat NZ)%nat ->
  xi !! i = Some Xi -> eta !! j = Some Eta ->
  raises_at Xb Xt Xl Xr Xi Eta ->
  forall s, is_raise (fst (tfi_loop Xb Xt Xl Xr xi eta NX NZ s)).
Proof.
  intros Hlen Hj EXi EEta Hr s. rewrite nested_is_flat by done.
  apply (for_raises _ _ (i, j)).
  - apply elem_of_nodes. split; [|done]. apply lookup_lt_Some in EXi. lia.
  - intros s'. rewrite (node_at_lookup _ _ _ _ Xi Eta) by done.
    by apply node_body_raises.
Qed.

(** Where no curve raises, the node is computed as by the curves made
    total. *)
Lemma node_body_defaulted i j Xi Eta s :
  ~ raises_at Xb Xt Xl Xr Xi Eta ->
  node_body Xb Xt Xl Xr i j Xi Eta s
  = node_body (total (defaulted Xb)) (total (defaulted Xt))
              (total (defaulted Xl)) (total (defaulted Xr)) i j Xi Eta s.
Proof.
  unfold raises_at, node_body, bind, lift, total, defaulted. intros Hr.
  destruct (Xb Xi); [|cbn in Hr; tauto].
  destruct (Xb (of_Z 0)); [|cbn in Hr; tauto].
  destruct (Xb (of_Z 1)); [|cbn in Hr; tauto].
  destruct (Xt Xi); [|cbn in Hr; tauto].
  destruct (Xt (of_Z 0)); [|cbn in Hr; tauto].
  destruct (Xt (of_Z 1)); [|cbn in Hr; tauto].
  destruct (Xl Eta); [|cbn in Hr; tauto].
  destruct (Xr Eta); [|cbn in Hr; tauto].
  done.
Qed.

End AnyCurves.

Lemma tfi_loop_defaulted (Xb Xt Xl Xr : curve T) xi eta (NX NZ : Z) s :
  length xi = Z.to_nat NX -> length eta = Z.to_nat NZ ->
  (forall i j Xi Eta, xi !! i = Some Xi -> eta !! j = Some Eta ->
     ~ raises_at Xb Xt Xl Xr Xi Eta) ->
  tfi_loop Xb Xt Xl Xr xi eta NX NZ s
  = tfi_loop (total (defaulted Xb)) (total (defaulted Xt))
             (total (defaulted Xl)) (total (defaulted Xr)) xi eta NX NZ s.
Proof.
  intros Hxi Heta Hno. rewrite !nested_is_flat by done.
  apply for_ext. intros [i j] s' [Hi Hj]%elem_of_nodes.
  destruct (lookup_lt_is_Some_2 xi i) as [Xi EXi]; [lia|].
  destruct (lookup_lt_is_Some_2 eta j) as [Eta EEta]; [lia|].
  rewrite !(node_at_lookup _ _ _ _ _ _ _ _ Xi Eta) by done.
  apply node_body_defaulted. by eapply Hno.
Qed.

(** Curves that agree everywhere drive the loop alike. *)
Lemma tfi_loop_ext (Xb Xt Xl Xr Xb' Xt' Xl' Xr' : curve T) xi eta (NX NZ : Z) s :
  (forall u, Xb u = Xb' u) -> (forall u, Xt u = Xt' u) ->
  (forall u, Xl u = Xl' u) -> (forall u, Xr u = Xr' u) ->
  tfi_loop Xb Xt Xl Xr xi eta NX NZ s = tfi_loop Xb' Xt' Xl' Xr' xi eta NX NZ s.
Proof.
  intros Hb Ht Hl Hr. unfold tfi_loop. apply for_ext. intros i s1 _.
  apply bind_congr; [done|]. intros Xi s2. apply for_ext. intros j s3 _.
  apply bind_congr; [done|]. intros Eta s4.
  unfold node_body. by rewrite !Hb, !Ht, !Hl, !Hr.
Qed.

(** ** Curves that never raise *)

Section TotalCurves.

Variables b t l r : T -> point T.

#[local] Abbreviation visit := (node_at (total b) (total t) (total l) (total r)).
#[local] Abbreviation gh c := (gordon_hall c b t l r).
#[local] Abbreviation mm c := (mesh_map c b t l r).

Lemma node_body_total i j Xi Eta s :
  node_body (total b) (total t) (total l) (total r) i j Xi Eta s
  = (_ <- setX i j (gh fst Xi Eta) ;; setZ i j (gh snd Xi Eta)) s.
Proof. reflexivity. Qed.

Lemma visit_total n m xi eta i j Xi Eta s :
  store_shape n m s -> (i < n)%nat -> (j < m)%nat ->
  xi !! i = Some Xi -> eta !! j = Some Eta ->
  exists s', visit xi eta (i, j) s = (Ok tt, s') /\ store_shape n m s' /\
    (forall i' j', entry (meshX s') i' j' =
       if decide (i' = i /\ j' = j) then Some (gh fst Xi Eta)
       else entry (meshX s) i' j') /\
    (forall i' j', entry (meshZ s') i' j' =
       if decide (i' = i /\ j' = j) then Some (gh snd Xi Eta)
       else entry (meshZ s) i' j').
Proof.
  intros [HX HZ] Hi Hj EXi EEta.
  destruct (setitem2_spec n m (meshX s) i j (gh fst Xi Eta) HX Hi Hj)
    as (X' & EX & HX' & HXent).
  destruct (setitem2_spec n m (meshZ s) i j (gh snd Xi Eta) HZ Hi Hj)
    as (Z' & EZ & HZ' & HZent).
  exists (mkStore X' Z'). rewrite (node_at_lookup _ _ _ _ _ _ _ _ Xi Eta) by done.
  rewrite node_body_total. unfold bind, setX, setZ. rewrite EX. cbn. rewrite EZ.
  done.
Qed.

(** Visiting any list of nodes of the grid writes exactly those nodes, each
    with the value of the pure map. *)
Lemma visits_total n m xi eta (order : list (nat * nat)) s :
  length xi = n -> length eta = m -> store_shape n m s ->
  Forall (fun p => (fst p < n)%nat /\ (snd p < m)%nat) order ->
  exists s', for_ order (visit xi eta) s = (Ok tt, s') /\ store_shape n m s' /\
    (forall i j, entry (meshX s') i j =
       if decide ((i, j) ∈ order) then entry (mm fst xi eta) i j
       else entry (meshX s) i j) /\
    (forall i j, entry (meshZ s') i j =
       if decide ((i, j) ∈ order) then entry (mm snd xi eta) i j
       else entry (meshZ s) i j).
Proof.
  intros Hn Hm Hs Hall. revert s Hs.
  induction Hall as [|[i j] rest [Hi Hj] _ IH]; intros s Hs.
  - exists s. split; [done|]. split; [done|].
    split; intros i j; rewrite decide_False; try done; apply not_elem_of_nil.
  - cbn [fst snd] in Hi, Hj.
    destruct (lookup_lt_is_Some_2 xi i) as [Xi EXi]; [lia|].
    destruct (lookup_lt_is_Some_2 eta j) as [Eta EEta]; [lia|].
    destruct (visit_total n m xi eta i j Xi Eta s Hs Hi Hj EXi EEta)
      as (s1 & E1 & Hs1 & HX1 & HZ1).
    destruct (IH s1 Hs1) as (s2 & E2 & Hs2 & HX2 & HZ2).
    exists s2. cbn [for_]. unfold bind. rewrite E1. split; [done|].
    split; [done|].
    split; intros i' j'; [rewrite HX2, HX1|rewrite HZ2, HZ1].
    all: destruct (decide ((i', j') ∈ rest)) as [Hin|Hin].
    all: try (rewrite decide_True; [done|by apply list_elem_of_further]).
    all: destruct (decide (i' = i /\ j' = j)) as [[-> ->]|Hne].
    all: try (rewrite decide_True by apply list_elem_of_here;
              symmetry; by apply entry_mesh_map).
    all: rewrite decide_False; [done|].
    all: intros [Heq|?]%elem_of_cons; [|done].
    all: injection Heq as -> ->; tauto.
Qed.

(** When the visit covers the grid, what it leaves is the pure map,
    whatever the arrays held before. *)
Lemma visits_total_covering n m xi eta (order : list (nat * nat)) s :
  length xi = n -> length eta = m -> store_shape n m s ->
  (forall i j, (i, j) ∈ order <-> (i < n)%nat /\ (j < m)%nat) ->
  for_ order (visit xi eta) s = (Ok tt, mkStore (mm fst xi eta) (mm snd xi eta)).
Proof.
  intros Hn Hm Hs Hcov.
  destruct (visits_total n m xi eta order s Hn Hm Hs)
    as ([X' Z'] & E & [HX' HZ'] & HX & HZ).
  { apply Forall_forall. intros [i j] Hin. by apply Hcov. }
  rewrite E. cbn in *. f_equal. f_equal.
  - apply (matrix_ext n m); [done|subst; apply mesh_map_shape|].
    intros i j Hi Hj. rewrite HX. rewrite decide_True; [done|]. by apply Hcov.
  - apply (matrix_ext n m); [done|subst; apply mesh_map_shape|].
    intros i j Hi Hj. rewrite HZ. rewrite decide_True; [done|]. by apply Hcov.
Qed.

(** The whole cell, for valid counts and curves that never raise. *)
Lemma tfi_cell_total (NX NZ : Z) s :
  (0 <= NX)%Z -> (0 <= NZ)%Z ->
  tfi_cell (total b) (total t) (total l) (total r) NX NZ s
  = (Ok tt, mkStore (mm fst (grid NX) (grid NZ)) (mm snd (grid NX) (grid NZ))).
Proof.
  intros HX HZ.
  destruct (tfi_cell_enters (total b) (total t) (total l) (total r) NX NZ HX HZ)
    as (A0 & _ & HA0 & ->).
  rewrite nested_is_flat by apply linspace_samples_length.
  apply (visits_total_covering (Z.to_nat NX) (Z.to_nat NZ));
    try apply linspace_samples_length; [done|].
  intros i j. apply elem_of_nodes.
Qed.

Lemma tfi_cell_in_order_total (order : list (nat * nat)) (NX NZ : Z) s :
  (0 <= NX)%Z -> (0 <= NZ)%Z ->
  (forall i j, (i, j) ∈ order <-> (i, j) ∈ nodes NX NZ) ->
  tfi_cell_in_order (total b) (total t) (total l) (total r) order NX NZ s
  = (Ok tt, mkStore (mm fst (grid NX) (grid NZ)) (mm snd (grid NX) (grid NZ))).
Proof.
  intros HX HZ Hcov.
  destruct (tfi_cell_in_order_enters (total b) (total t) (total l) (total r)
              order NX NZ HX HZ) as (A0 & HA0 & ->).
  apply (visits_total_covering (Z.to_nat NX) (Z.to_nat NZ));
    try apply linspace_samples_length; [done|].
  intros i j. rewrite Hcov. apply elem_of_nodes.
Qed.

Lemma generate_mesh_total (NX NZ : Z) :
  (0 <= NX)%Z -> (0 <= NZ)%Z ->
  generate_mesh (total b) (total t) (total l) (total r) NX NZ
  = Ok (mm fst (grid NX) (grid NZ), mm snd (grid NX) (grid NZ)).
Proof.
  intros HX HZ. unfold generate_mesh. by rewrite tfi_cell_total.
Qed.

End TotalCurves.
End Structure.

(** * The cell in exact arithmetic *)

Section Exact.

Implicit Types (b t l r : Qc -> point Qc).

Lemma of_Z_nonzero (z : Z) : z <> 0%Z -> Q2Qc (inject_Z z) <> 0%Qc.
Proof.
  intros Hz E. apply Q2Qc_eq_iff in E. unfold Qeq in E. cbn in E. lia.
Qed.

Lemma grid_lookup (num : Z) (k : nat) :
  (2 <= num)%Z -> (k < Z.to_nat num)%nat -> grid num !! k = Some (uniform num k).
Proof.
  intros Hnum Hk. unfold grid, linspace_samples, uniform.
  rewrite (proj2 (Z.ltb_lt 1 num)) by lia.
  assert (Hnz : Q2Qc (inject_Z (num - 1)) <> 0%Qc) by (apply of_Z_nonzero; lia).
  destruct (decide (k = Z.to_nat num - 1)%nat) as [->|Hne].
  - rewrite list_lookup_insert_eq
      by (rewrite !length_map; unfold arange; rewrite length_map, length_seq; lia).
    f_equal. replace (Z.of_nat (Z.to_nat num - 1)) with (num - 1)%Z by lia.
    cbn [of_Z sdiv Qc_Scalar].
    change (Q2Qc (inject_Z 1)) with 1%Qc. by field.
  - rewrite list_lookup_insert_ne by done. unfold arange.
    rewrite !lookup_map, lookup_seq_lt by lia. cbn [fmap option_fmap option_map].
    f_equal. cbn [of_Z sadd ssub smul sdiv Qc_Scalar Nat.add].
    change (Q2Qc (inject_Z 1)) with 1%Qc. change (Q2Qc (inject_Z 0)) with 0%Qc.
    by field.
Qed.



(** ** The blending formula as a polynomial identity *)

Lemma gordon_hall_Qc (c : point Qc -> Qc) b t l r (xi eta : Qc) :
  gordon_hall c b t l r xi eta
  = ((1 - eta) * c (b xi) + eta * c (t xi) + (1 - xi) * c (l eta) + xi * c (r eta)
     - (xi * eta * c (t 1) + xi * (1 - eta) * c (b 1)
        + eta * (1 - xi) * c (t 0) + (1 - xi) * (1 - eta) * c (b 0)))%Qc.
Proof. reflexivity. Qed.





Lemma gordon_hall_square_x (xi eta : Qc) :
  gordon_hall fst square_bottom square_top square_left square_right xi eta = xi.
Proof. rewrite gordon_hall_Qc. cbn. ring. Qed.

Lemma gordon_hall_square_z (xi eta : Qc) :
  gordon_hall snd square_bottom square_top square_left square_right xi eta = eta.
Proof. rewrite gordon_hall_Qc. cbn. ring. Qed.


Lemma uniform_first (num : Z) : (2 <= num)%Z -> uniform num 0 = 0%Qc.
Proof.
  intros Hnum. unfold uniform. cbn [of_Z sdiv Qc_Scalar].
  change (Q2Qc (inject_Z (Z.of_nat 0))) with 0%Qc.
  field. apply of_Z_nonzero. lia.
Qed.

Lemma uniform_last (num : Z) :
  (2 <= num)%Z -> uniform num (Z.to_nat num - 1) = 1%Qc.
Proof.
  intros Hnum. unfold uniform. cbn [of_Z sdiv Qc_Scalar].
  replace (Z.of_nat (Z.to_nat num - 1)) with (num - 1)%Z by lia.
  field. apply of_Z_nonzero. lia.
Qed.

End Exact.

(** * The properties of the specification *)

Section StructuralProperties.

Context {T : Type} `{Scalar T}.

(** C6 (shape postcondition).  For a valid call, with curves that never
    raise and [NX, NZ >= 2], the cell completes and both arrays [X] and [Z]
    have shape [(NX, NZ)]; and every entry is written by the loop: started
    on arrays of that shape with any contents in place of the zeros of
    [np.zeros], the loop ends with the same two arrays. *)
Theorem output_shape (b t l r : T -> point T) (NX NZ : Z) :
  (2 <= NX)%Z -> (2 <= NZ)%Z ->
  exists X Z : matrix T,
    generate_mesh (total b) (total t) (total l) (total r) NX NZ = Ok (X, Z) /\
    shape (Z.to_nat NX) (Z.to_nat NZ) X /\
    shape (Z.to_nat NX) (Z.to_nat NZ) Z /\
    forall X0 Z0 : matrix T,
      shape (Z.to_nat NX) (Z.to_nat NZ) X0 ->
      shape (Z.to_nat NX) (Z.to_nat NZ) Z0 ->
      tfi_loop (total b) (total t) (total l) (total r) (grid NX) (grid NZ) NX NZ
        (mkStore X0 Z0)
      = (Ok tt, mkStore X Z).
Proof.
  intros HX HZ.
  exists (mesh_map fst b t l r (grid NX) (grid NZ)),
         (mesh_map snd b t l r (grid NX) (grid NZ)).
  split; [apply generate_mesh_total; lia|].
  split; [apply mesh_map_grid_shape|]. split; [apply mesh_map_grid_shape|].
  intros X0 Z0 HX0 HZ0. rewrite nested_is_flat by apply linspace_samples_length.
  apply (visits_total_covering b t l r (Z.to_nat NX) (Z.to_nat NZ));
    try apply linspace_samples_length; [done|].
  intros i j. apply elem_of_nodes.
Qed.

(** C7 (loop/map refinement).  For curves that never raise and counts that
    are not negative, the nested loop over the mutable arrays returns the
    pure map of the blending formula over the logical grid, whose entry
    [(i,j)] is a function of [xi[i]], [eta[j]] and the curves alone; and
    visiting the nodes in any other order returns the same arrays. *)
Theorem loop_is_pure_map (b t l r : T -> point T) (NX NZ : Z)
    (order : list (nat * nat)) :
  (0 <= NX)%Z -> (0 <= NZ)%Z ->
  order ≡ₚ nodes NX NZ ->
  generate_mesh (total b) (total t) (total l) (total r) NX NZ
  = Ok (mesh_map fst b t l r (grid NX) (grid NZ),
        mesh_map snd b t l r (grid NX) (grid NZ)) /\
  generate_mesh_in_order (total b) (total t) (total l) (total r) order NX NZ
  = generate_mesh (total b) (total t) (total l) (total r) NX NZ /\
  forall (i j : nat) (Xi Eta : T),
    grid NX !! i = Some Xi -> grid NZ !! j = Some Eta ->
    mesh_node (mesh_map fst b t l r (grid NX) (grid NZ),
               mesh_map snd b t l r (grid NX) (grid NZ)) i j
    = Some (gordon_hall fst b t l r Xi Eta, gordon_hall snd b t l r Xi Eta).
Proof.
  intros HX HZ Hperm. split; [by apply generate_mesh_total|]. split.
  - rewrite generate_mesh_total by done. unfold generate_mesh_in_order.
    rewrite tfi_cell_in_order_total; [done..|].
    intros i j. by rewrite Hperm.
  - intros i j Xi Eta EXi EEta. unfold mesh_node. cbn [fst snd].
    by rewrite !(entry_mesh_map _ _ _ _ _ _ _ _ _ Xi Eta).
Qed.

(** C8 (determinism).  Two runs of the cell with the same counts and with
    curves that agree everywhere hand back the same result, whatever the
    name space held before each run; so do two calls of [generate_mesh]. *)
Theorem generate_mesh_deterministic
    (Xb Xt Xl Xr Xb' Xt' Xl' Xr' : curve T) (NX NZ : Z) (s1 s2 : store T) :
  (forall u, Xb u = Xb' u) -> (forall u, Xt u = Xt' u) ->
  (forall u, Xl u = Xl' u) -> (forall u, Xr u = Xr' u) ->
  outcome (tfi_cell Xb Xt Xl Xr NX NZ s1)
  = outcome (tfi_cell Xb' Xt' Xl' Xr' NX NZ s2) /\
  generate_mesh Xb Xt Xl Xr NX NZ = generate_mesh Xb' Xt' Xl' Xr' NX NZ.
Proof.
  intros Hb Ht Hl Hr.
  assert (Hrun : forall s s',
    outcome (tfi_cell Xb Xt Xl Xr NX NZ s)
    = outcome (tfi_cell Xb' Xt' Xl' Xr' NX NZ s')).
  { intros s s'.
    destruct (decide (NX < 0 \/ NZ < 0)%Z) as [Hneg|Hpos].
    - by rewrite !tfi_cell_negative.
    - destruct (tfi_cell_enters Xb Xt Xl Xr NX NZ) as (A0 & E0 & _ & ->); [lia..|].
      destruct (tfi_cell_enters Xb' Xt' Xl' Xr' NX NZ) as (A1 & E1 & _ & ->);
        [lia..|].
      rewrite E0 in E1. injection E1 as <-.
      by rewrite (tfi_loop_ext Xb Xt Xl Xr Xb' Xt' Xl' Xr'). }
  split; [apply Hrun|]. unfold generate_mesh. apply Hrun.
Qed.

(** C4, as the code has it (invalid arguments).  A negative count raises
    [ValueError] in [np.linspace]; with counts that are not negative, a
    curve that raises at a node of the grid makes the call raise; and with
    counts that are not negative, among them 0 and 1, and no curve raising
    at a node of the grid, the call completes with two arrays of shape
    [(NX, NZ)]. *)
Theorem error_behaviour (Xb Xt Xl Xr : curve T) (NX NZ : Z) :
  ((NX < 0 \/ NZ < 0)%Z ->
     generate_mesh Xb Xt Xl Xr NX NZ = Raise ValueError) /\
  ((0 <= NX)%Z -> (0 <= NZ)%Z ->
   (exists (i j : nat) (Xi Eta : T),
      grid NX !! i = Some Xi /\ grid NZ !! j = Some Eta /\
      raises_at Xb Xt Xl Xr Xi Eta) ->
     is_raise (generate_mesh Xb Xt Xl Xr NX NZ)) /\
  ((0 <= NX)%Z -> (0 <= NZ)%Z ->
   (forall (i j : nat) (Xi Eta : T),
      grid NX !! i = Some Xi -> grid NZ !! j = Some Eta ->
      ~ raises_at Xb Xt Xl Xr Xi Eta) ->
     exists X Z : matrix T,
       generate_mesh Xb Xt Xl Xr NX NZ = Ok (X, Z) /\
       shape (Z.to_nat NX) (Z.to_nat NZ) X /\
       shape (Z.to_nat NX) (Z.to_nat NZ) Z).
Proof.
  split; [|split].
  - intros Hneg. unfold generate_mesh. by rewrite tfi_cell_negative.
  - intros HX HZ (i & j & Xi & Eta & EXi & EEta & Hr). unfold generate_mesh.
    destruct (tfi_cell_enters Xb Xt Xl Xr NX NZ HX HZ) as (A0 & _ & _ & ->).
    pose proof (tfi_loop_raises Xb Xt Xl Xr (grid NX) (grid NZ) NX NZ i j Xi Eta)
      as Hloop.
    specialize (Hloop (linspace_samples_length _ _ _)).
    apply lookup_lt_Some in EEta as Hj.
    unfold grid in Hj at 1. rewrite linspace_samples_length in Hj.
    specialize (Hloop Hj EXi EEta Hr (mkStore A0 A0)).
    by destruct (tfi_loop Xb Xt Xl Xr (grid NX) (grid NZ) NX NZ (mkStore A0 A0))
      as [[[]|e] s'].
  - intros HX HZ Hno. unfold generate_mesh.
    destruct (tfi_cell_enters Xb Xt Xl Xr NX NZ HX HZ) as (A0 & _ & HA0 & ->).
    rewrite tfi_loop_defaulted; [|apply linspace_samples_length..|done].
    rewrite nested_is_flat by apply linspace_samples_length.
    rewrite (visits_total_covering _ _ _ _ (Z.to_nat NX) (Z.to_nat NZ));
      try apply linspace_samples_length; [|done|intros i j; apply elem_of_nodes].
    cbn [outcome meshX meshZ]. eexists _, _. split; [reflexivity|].
    split; apply mesh_map_grid_shape.
Qed.

End StructuralProperties.

(** ** The value stored at a node *)

Lemma grid_sample {T : Type} `{Scalar T} (num : Z) (k : nat) :
  (2 <= num)%Z -> (k < Z.to_nat num)%nat ->
  (grid num : list T) !! k = Some (linspace_sample num k).
Proof.
  intros Hnum Hk. unfold grid, linspace_samples, linspace_sample.
  rewrite (proj2 (Z.ltb_lt 1 num)) by lia.
  destruct (k =? Z.to_nat num - 1)%nat eqn:Elast.
  - apply Nat.eqb_eq in Elast as ->. apply list_lookup_insert_eq.
    rewrite !length_map. unfold arange. rewrite length_map, length_seq. lia.
  - apply Nat.eqb_neq in Elast. rewrite list_lookup_insert_ne by done.
    unfold arange. by rewrite !lookup_map, lookup_seq_lt by lia.
Qed.

(** C1, as the code has it (the algorithm).  For curves that never raise
    and [NX, NZ >= 2], in the arithmetic of the cell, whichever it is: the
    samples are those of [np.linspace], [xi[i] = i * step + 0] with
    [step = (1 - 0) / (NX - 1)] for [i < NX - 1] and [xi[NX-1] = 1]
    (likewise [eta]), and the cell returns arrays whose entry [(i,j)] is
    the value of the blending formula at [(xi[i], eta[j])], for the [x]
    component in [X] and the [z] component in [Z].  In doubles
    [i * step] is not always the rounded quotient [i/(NX-1)]. *)
Theorem generate_mesh_blends {T : Type} `{Scalar T}
    (b t l r : T -> point T) (NX NZ : Z) :
  (2 <= NX)%Z -> (2 <= NZ)%Z ->
  exists (xi eta : list T) (X Z : matrix T),
    linspace (of_Z 0) (of_Z 1) NX = Ok xi /\
    linspace (of_Z 0) (of_Z 1) NZ = Ok eta /\
    length xi = Z.to_nat NX /\ length eta = Z.to_nat NZ /\
    generate_mesh (total b) (total t) (total l) (total r) NX NZ = Ok (X, Z) /\
    forall i j : nat, (i < Z.to_nat NX)%nat -> (j < Z.to_nat NZ)%nat ->
      xi !! i = Some (linspace_sample NX i) /\
      eta !! j = Some (linspace_sample NZ j) /\
      entry X i j
      = Some (gordon_hall fst b t l r (linspace_sample NX i) (linspace_sample NZ j)) /\
      entry Z i j
      = Some (gordon_hall snd b t l r (linspace_sample NX i) (linspace_sample NZ j)).
Proof.
  intros HX HZ.
  exists (grid NX), (grid NZ),
         (mesh_map fst b t l r (grid NX) (grid NZ)),
         (mesh_map snd b t l r (grid NX) (grid NZ)).
  split; [apply linspace_ok; lia|]. split; [apply linspace_ok; lia|].
  split; [apply linspace_samples_length|]. split; [apply linspace_samples_length|].
  split; [apply generate_mesh_total; lia|].
  intros i j Hi Hj.
  pose proof (grid_sample NX i HX Hi) as EXi.
  pose proof (grid_sample NZ j HZ Hj) as EEta.
  split; [done|]. split; [done|].
  split; by apply entry_mesh_map.
Qed.

(** C1 as stated fails in the doubles of the cell: sample 13 of 20 is
    [13 * (1/19)] rounded, 0.68421052631578938, and not the double nearest
    to 13/19, 0.68421052631578949. *)
Lemma sample_is_not_the_rounded_quotient :
  (grid 20 : list float) !! 13%nat = Some 0x1.5e50d79435e5p-1%float /\
  (float_of_Z 13 / float_of_Z 19)%float = 0x1.5e50d79435e51p-1%float /\
  (grid 20 : list float) !! 13%nat <> Some (float_of_Z 13 / float_of_Z 19)%float.
Proof.
  split; [vm_compute; reflexivity|]. split; [vm_compute; reflexivity|].
  intros E.
  apply (f_equal (fun o => match o with
                           | Some x => PrimFloat.eqb x 0x1.5e50d79435e51p-1
                           | None => false
                           end)) in E.
  vm_compute in E. discriminate E.
Qed.



(** ** Identities of the blending formula, in exact arithmetic *)





(** ** The properties at concrete calls *)



Lemma output_shape_witness :
  exists X Z : matrix Qc,
    generate_mesh (total square_bottom) (total square_top)
      (total square_left) (total square_right) 2 3 = Ok (X, Z) /\
    shape 2 3 X /\ shape 2 3 Z.
Proof.
  destruct (output_shape square_bottom square_top square_left square_right 2 3)
    as (X & Z & E & HX & HZ & _); [lia..|].
  exists X, Z. split; [exact E|]. split; [exact HX|exact HZ].
Defined.

Lemma loop_is_pure_map_witness :
  generate_mesh_in_order (total square_bottom) (total square_top)
    (total square_left) (total square_right) (rev (nodes 2 2)) 2 2
  = generate_mesh (total square_bottom) (total square_top)
      (total square_left) (total square_right) 2 2.
Proof.
  destruct (loop_is_pure_map square_bottom square_top square_left square_right
              2 2 (rev (nodes 2 2))) as (_ & E & _);
    [lia|lia|symmetry; apply Permutation_rev|].
  exact E.
Defined.

Lemma generate_mesh_deterministic_witness :
  outcome (tfi_cell (total square_bottom) (total square_top)
             (total square_left) right_raising_at_one 2 2 (mkStore [] []))
  = outcome (tfi_cell (fun xi => Ok (xi, 0%Qc)) (total square_top)
               (total square_left) right_raising_at_one 2 2
               (mkStore [[1%Qc]] [[]])).
Proof.
  destruct (generate_mesh_deterministic
              (total square_bottom) (total square_top) (total square_left)
              right_raising_at_one
              (fun xi => Ok (xi, 0%Qc)) (total square_top) (total square_left)
              right_raising_at_one 2 2 (mkStore [] []) (mkStore [[1%Qc]] [[]]))
    as [E _]; [intros u; reflexivity..|].
  exact E.
Defined.



Lemma generate_mesh_blends_witness :
  exists X Z : matrix float,
    generate_mesh (total unit_bottom) (total unit_top)
      (total unit_left) (total unit_right) 3 3 = Ok (X, Z) /\
    entry X 1 2
    = Some (gordon_hall fst unit_bottom unit_top unit_left unit_right
              (linspace_sample 3 1) (linspace_sample 3 2)).
Proof.
  destruct (generate_mesh_blends (T := float)
              unit_bottom unit_top unit_left unit_right 3 3)
    as (xi & eta & X & Z & _ & _ & _ & _ & E & Hnodes); [lia..|].
  exists X, Z. split; [exact E|].
  destruct (Hnodes 1%nat 2%nat) as (_ & _ & HXe & _); [cbn; lia..|]. exact HXe.
Defined.





(** C4 as stated fails: a call with a single sample along [xi] is no
    error; it returns the one-row mesh of the left curve. *)
Lemma single_sample_is_no_error :
  (1 < 2)%Z /\
  generate_mesh (total square_bottom) (total square_top)
    (total square_left) (total square_right) 1 2
  = Ok ([[0; 0]], [[0; 1]])%Qc /\
  ~ is_raise (generate_mesh (total square_bottom) (total square_top)
                (total square_left) (total square_right) 1 2).
Proof.
  assert (E : generate_mesh (total square_bottom) (total square_top)
                (total square_left) (total square_right) 1 2
              = Ok ([[0; 0]], [[0; 1]])%Qc).
  { rewrite generate_mesh_total by lia. cbn.
    repeat f_equal; apply Qc_is_canon; reflexivity. }
  split; [lia|]. split; [exact E|]. rewrite E. cbn. tauto.
Qed.

Lemma error_behaviour_witness :
  generate_mesh (total square_bottom) (total square_top)
    (total square_left) right_raising_at_one (-1) 2 = Raise ValueError /\
  is_raise (generate_mesh (total square_bottom) (total square_top)
              (total square_left) right_raising_at_one 2 2) /\
  exists X Z : matrix Qc,
    generate_mesh (total square_bottom) (total square_top)
      (total square_left) right_raising_at_one 2 0 = Ok (X, Z) /\
    shape 2 0 X /\ shape 2 0 Z.
Proof.
  split; [|split].
  - apply (error_behaviour (total square_bottom) (total square_top)
             (total square_left) right_raising_at_one (-1) 2). lia.
  - apply (error_behaviour (total square_bottom) (total square_top)
             (total square_left) right_raising_at_one 2 2); [lia..|].
    exists 0%nat, 1%nat, (uniform 2 0), (uniform 2 1).
    split; [apply grid_lookup; cbn; lia|]. split; [apply grid_lookup; cbn; lia|].
    unfold raises_at. do 7 right. vm_compute. exact I.
  - apply (error_behaviour (total square_bottom) (total square_top)
             (total square_left) right_raising_at_one 2 0); [lia..|].
    intros i j Xi Eta _ Ej. destruct j; discriminate Ej.
Defined.

(** What an exception leaves behind: the node (0,0) was written before the
    right curve raised at (0,1), and stays in the global arrays. *)
Lemma exception_leaves_partial_arrays :
  exists s : store Qc,
    tfi_cell (total square_bottom) (total square_top) (total square_right)
      right_raising_at_one 2 2 (mkStore [] [])
    = (Raise (EvalError 0), s) /\
    mesh_node (meshX s, meshZ s) 0 0 = Some (1%Qc, 0%Qc) /\
    mesh_node (meshX s, meshZ s) 1 1 = Some (0%Qc, 0%Qc).
Proof.
  eexists. split; [vm_compute; reflexivity|].
  split; cbn; repeat f_equal; apply Qc_is_canon; reflexivity.
Qed.

(** * Further properties of the cell *)

(** ** For any number type *)

Section FurtherStructure.

Context {T : Type} `{Scalar T}.

Implicit Types (s : store T) (xi eta : list T).

Section Curves.

Variables Xb Xt Xl Xr : curve T.

(** The body of the loop computes the value of the node, then writes it. *)
Lemma node_body_value i j Xi Eta s :
  node_body Xb Xt Xl Xr i j Xi Eta s
  = match node_value Xb Xt Xl Xr Xi Eta with
    | Ok p => (_ <- setX i j (fst p) ;; setZ i j (snd p)) s
    | Raise e => (Raise e, s)
    end.
Proof.
  unfold node_body, node_value, bind, lift, res_bind.
  destruct (Xb Xi); [|done]. destruct (Xb (of_Z 0)); [|done].
  destruct (Xb (of_Z 1)); [|done]. destruct (Xt Xi); [|done].
  destruct (Xt (of_Z 0)); [|done]. destruct (Xt (of_Z 1)); [|done].
  destruct (Xl Eta); [|done]. destruct (Xr Eta); done.
Qed.

Lemma node_value_Ok Xi Eta p :
  node_value Xb Xt Xl Xr Xi Eta = Ok p ->
  ~ raises_at Xb Xt Xl Xr Xi Eta /\
  p = (gordon_hall fst (defaulted Xb) (defaulted Xt) (defaulted Xl) (defaulted Xr)
         Xi Eta,
       gordon_hall snd (defaulted Xb) (defaulted Xt) (defaulted Xl) (defaulted Xr)
         Xi Eta).
Proof.
  unfold node_value, raises_at, gordon_hall, defaulted, res_bind.
  destruct (Xb Xi); [|done]. destruct (Xb (of_Z 0)); [|done].
  destruct (Xb (of_Z 1)); [|done]. destruct (Xt Xi); [|done].
  destruct (Xt (of_Z 0)); [|done]. destruct (Xt (of_Z 1)); [|done].
  destruct (Xl Eta); [|done]. destruct (Xr Eta); [|done].
  intros [= <-]. cbn. split; [tauto|done].
Qed.

Lemma visit_raise xi eta i j Xi Eta e s :
  xi !! i = Some Xi -> eta !! j = Some Eta ->
  node_value Xb Xt Xl Xr Xi Eta = Raise e ->
  node_at Xb Xt Xl Xr xi eta (i, j) s = (Raise e, s).
Proof.
  intros EXi EEta Hv.
  by rewrite (node_at_lookup _ _ _ _ _ _ _ _ Xi Eta), node_body_value, Hv.
Qed.

(** A node at which no curve raises is visited as by the curves made
    total. *)
Lemma visit_defaulted xi eta i j Xi Eta s :
  xi !! i = Some Xi -> eta !! j = Some Eta ->
  ~ raises_at Xb Xt Xl Xr Xi Eta ->
  node_at Xb Xt Xl Xr xi eta (i, j) s
  = node_at (total (defaulted Xb)) (total (defaulted Xt))
            (total (defaulted Xl)) (total (defaulted Xr)) xi eta (i, j) s.
Proof.
  intros EXi EEta Hno. rewrite !(node_at_lookup _ _ _ _ _ _ _ _ Xi Eta) by done.
  by apply node_body_defaulted.
Qed.

(** Whatever the curves do, a visit of nodes of the grid keeps the shape of
    the two arrays, and an exception that ends it is one a curve raised at
    a visited node. *)
Lemma visits_classify n m xi eta (order : list (nat * nat)) s :
  length xi = n -> length eta = m -> store_shape n m s ->
  Forall (fun p => (fst p < n)%nat /\ (snd p < m)%nat) order ->
  exists r s', for_ order (node_at Xb Xt Xl Xr xi eta) s = (r, s') /\
    store_shape n m s' /\
    match r with
    | Ok _ => True
    | Raise e =>
        exists i j Xi Eta, (i, j) ∈ order /\
          xi !! i = Some Xi /\ eta !! j = Some Eta /\
          node_value Xb Xt Xl Xr Xi Eta = Raise e
    end.
Proof.
  intros Hn Hm Hs Hall. revert s Hs.
  induction Hall as [|[i j] rest [Hi Hj] _ IH]; intros s Hs.
  - exists (Ok tt), s. done.
  - cbn [fst snd] in Hi, Hj.
    destruct (lookup_lt_is_Some_2 xi i) as [Xi EXi]; [lia|].
    destruct (lookup_lt_is_Some_2 eta j) as [Eta EEta]; [lia|].
    cbn [for_]. unfold bind.
    destruct (node_value Xb Xt Xl Xr Xi Eta) as [p|e] eqn:Hv.
    + apply node_value_Ok in Hv as [Hno _].
      rewrite (visit_defaulted _ _ _ _ Xi Eta) by done.
      destruct (visit_total (defaulted Xb) (defaulted Xt) (defaulted Xl)
                  (defaulted Xr) n m xi eta i j Xi Eta s Hs Hi Hj EXi EEta)
        as (s1 & -> & Hs1 & _).
      destruct (IH s1 Hs1) as (r & s2 & -> & Hs2 & Hr).
      exists r, s2. split; [done|]. split; [done|].
      destruct r as [?|e]; [done|].
      destruct Hr as (i' & j' & Xi' & Eta' & Hin & Hrest).
      exists i', j', Xi', Eta'. split; [by apply list_elem_of_further|done].
    + rewrite (visit_raise _ _ _ _ Xi Eta e) by done.
      exists (Raise e), s. split; [done|]. split; [done|].
      exists i, j, Xi, Eta. split; [apply list_elem_of_here|done].
Qed.

End Curves.

Lemma zeros_ok (NX NZ : Z) :
  (0 <= NX)%Z -> (0 <= NZ)%Z ->
  zeros NX NZ = Ok (replicate (Z.to_nat NX) (replicate (Z.to_nat NZ) (of_Z 0 : T))).
Proof.
  intros HX HZ. unfold zeros.
  by rewrite (proj2 (Z.ltb_ge _ _) HX), (proj2 (Z.ltb_ge _ _) HZ).
Qed.

Lemma entry_replicate (n m i j : nat) (z : T) :
  (i < n)%nat -> (j < m)%nat -> entry (replicate n (replicate m z)) i j = Some z.
Proof.
  intros Hi Hj. unfold entry. rewrite lookup_replicate_2 by done.
  by apply lookup_replicate_2.
Qed.

Lemma tfi_cell_starts_on_zeros (Xb Xt Xl Xr : curve T) (NX NZ : Z) s :
  (0 <= NX)%Z -> (0 <= NZ)%Z ->
  tfi_cell Xb Xt Xl Xr NX NZ s
  = for_ (nodes NX NZ) (node_at Xb Xt Xl Xr (grid NX) (grid NZ))
      (mkStore (replicate (Z.to_nat NX) (replicate (Z.to_nat NZ) (of_Z 0)))
               (replicate (Z.to_nat NX) (replicate (Z.to_nat NZ) (of_Z 0)))).
Proof.
  intros HX HZ.
  destruct (tfi_cell_enters Xb Xt Xl Xr NX NZ HX HZ) as (A0 & E0 & _ & ->).
  rewrite zeros_ok in E0 by done. injection E0 as <-.
  apply nested_is_flat, linspace_samples_length.
Qed.

Lemma zeros_store_shape (NX NZ : Z) :
  store_shape (Z.to_nat NX) (Z.to_nat NZ)
    (mkStore (replicate (Z.to_nat NX) (replicate (Z.to_nat NZ) (of_Z 0 : T)))
             (replicate (Z.to_nat NX) (replicate (Z.to_nat NZ) (of_Z 0 : T)))).
Proof.
  assert (Hz : shape (Z.to_nat NX) (Z.to_nat NZ)
                 (replicate (Z.to_nat NX) (replicate (Z.to_nat NZ) (of_Z 0 : T)))).
  { split; [by rewrite length_replicate|].
    apply Forall_replicate. by rewrite length_replicate. }
  by split.
Qed.

Lemma nodes_in_range (NX NZ : Z) (order : list (nat * nat)) :
  (forall p, p ∈ order -> p ∈ nodes NX NZ) ->
  Forall (fun p => (fst p < Z.to_nat NX)%nat /\ (snd p < Z.to_nat NZ)%nat) order.
Proof.
  intros Hsub. apply Forall_forall. intros [i j] Hin.
  by apply elem_of_nodes, Hsub.
Qed.

(** X1 (the arrays after any run).  A run with a negative count raises
    [ValueError] and leaves the arrays [X] and [Z] of an earlier run as
    they were.  A run with counts that are not negative leaves two arrays
    of shape [(NX, NZ)], whether it completes or a curve raises. *)
Theorem arrays_after_any_run (Xb Xt Xl Xr : curve T) (NX NZ : Z) s :
  ((NX < 0 \/ NZ < 0)%Z ->
     tfi_cell Xb Xt Xl Xr NX NZ s = (Raise ValueError, s)) /\
  ((0 <= NX)%Z -> (0 <= NZ)%Z ->
     store_shape (Z.to_nat NX) (Z.to_nat NZ) (snd (tfi_cell Xb Xt Xl Xr NX NZ s))).
Proof.
  split; [apply tfi_cell_negative|]. intros HX HZ.
  rewrite tfi_cell_starts_on_zeros by done.
  destruct (visits_classify Xb Xt Xl Xr (Z.to_nat NX) (Z.to_nat NZ)
              (grid NX) (grid NZ) (nodes NX NZ) _
              (linspace_samples_length _ _ _) (linspace_samples_length _ _ _)
              (zeros_store_shape NX NZ))
    as (r & s' & -> & Hs' & _); [by apply nodes_in_range|done].
Qed.

(** X2 (the first failure).  With counts that are not negative, let
    [(i,j)] be the first node in loop order at which a curve raises, with
    [e] the first exception of that node's evaluations.  The run raises
    [e]; the nodes visited before [(i,j)] hold their blended values and
    every other node still holds the zero of [np.zeros]. *)
Theorem first_failure (Xb Xt Xl Xr : curve T) (NX NZ : Z)
    (before after : list (nat * nat)) (i j : nat) (Xi Eta : T) (e : exn) s :
  (0 <= NX)%Z -> (0 <= NZ)%Z ->
  nodes NX NZ = before ++ (i, j) :: after ->
  (forall i' j' Xi' Eta', (i', j') ∈ before ->
     grid NX !! i' = Some Xi' -> grid NZ !! j' = Some Eta' ->
     ~ raises_at Xb Xt Xl Xr Xi' Eta') ->
  grid NX !! i = Some Xi -> grid NZ !! j = Some Eta ->
  node_value Xb Xt Xl Xr Xi Eta = Raise e ->
  exists s',
    tfi_cell Xb Xt Xl Xr NX NZ s = (Raise e, s') /\
    forall i' j', (i' < Z.to_nat NX)%nat -> (j' < Z.to_nat NZ)%nat ->
      mesh_node (meshX s', meshZ s') i' j' =
        if decide ((i', j') ∈ before)
        then mesh_node
               (mesh_map fst (defaulted Xb) (defaulted Xt) (defaulted Xl)
                  (defaulted Xr) (grid NX) (grid NZ),
                mesh_map snd (defaulted Xb) (defaulted Xt) (defaulted Xl)
                  (defaulted Xr) (grid NX) (grid NZ)) i' j'
        else Some (of_Z 0, of_Z 0).
Proof.
  intros HX HZ Hsplit Hok EXi EEta Hv.
  rewrite tfi_cell_starts_on_zeros by done. rewrite Hsplit, for_app.
  assert (Hsub : forall p, p ∈ before -> p ∈ nodes NX NZ).
  { intros p Hp. rewrite Hsplit. apply elem_of_app. by left. }
  unfold bind at 1.
  rewrite (for_ext before _
             (node_at (total (defaulted Xb)) (total (defaulted Xt))
                      (total (defaulted Xl)) (total (defaulted Xr))
                      (grid NX) (grid NZ))).
  2:{ intros [i' j'] s1 Hin.
      destruct (proj1 (elem_of_nodes NX NZ i' j') (Hsub _ Hin)) as [Hi' Hj'].
      destruct (lookup_lt_is_Some_2 (grid NX) i') as [Xi' EXi'].
      { unfold grid. rewrite linspace_samples_length. lia. }
      destruct (lookup_lt_is_Some_2 (grid NZ) j') as [Eta' EEta'].
      { unfold grid. rewrite linspace_samples_length. lia. }
      apply (visit_defaulted _ _ _ _ _ _ _ _ Xi' Eta'); [done..|].
      by eapply Hok. }
  destruct (visits_total (defaulted Xb) (defaulted Xt) (defaulted Xl) (defaulted Xr)
              (Z.to_nat NX) (Z.to_nat NZ) (grid NX) (grid NZ) before _
              (linspace_samples_length _ _ _) (linspace_samples_length _ _ _)
              (zeros_store_shape NX NZ) (nodes_in_range NX NZ before Hsub))
    as (s1 & -> & _ & HXe & HZe).
  exists s1. cbn [for_]. unfold bind.
  rewrite (visit_raise _ _ _ _ _ _ _ _ Xi Eta e) by done. split; [done|].
  intros i' j' Hi' Hj'. unfold mesh_node. cbn [fst snd meshX meshZ].
  rewrite HXe, HZe. cbn [meshX meshZ].
  destruct (decide ((i', j') ∈ before)); [done|].
  by rewrite entry_replicate.
Qed.

(** X3 (where an exception comes from).  An exception of the call is
    either the [ValueError] of a negative count or the exception a curve
    raised at a node of the grid: the loop itself never indexes out of
    bounds. *)
Theorem exception_origin (Xb Xt Xl Xr : curve T) (NX NZ : Z) (e : exn) :
  generate_mesh Xb Xt Xl Xr NX NZ = Raise e ->
  ((NX < 0 \/ NZ < 0)%Z /\ e = ValueError) \/
  ((0 <= NX)%Z /\ (0 <= NZ)%Z /\
   exists i j Xi Eta,
     grid NX !! i = Some Xi /\ grid NZ !! j = Some Eta /\
     node_value Xb Xt Xl Xr Xi Eta = Raise e).
Proof.
  unfold generate_mesh. intros Hrun.
  destruct (decide (NX < 0 \/ NZ < 0)%Z) as [Hneg|Hpos].
  - left. split; [done|]. rewrite tfi_cell_negative in Hrun by done.
    by injection Hrun.
  - right. split; [lia|]. split; [lia|].
    rewrite tfi_cell_starts_on_zeros in Hrun by lia.
    destruct (visits_classify Xb Xt Xl Xr (Z.to_nat NX) (Z.to_nat NZ)
                (grid NX) (grid NZ) (nodes NX NZ) _
                (linspace_samples_length _ _ _) (linspace_samples_length _ _ _)
                (zeros_store_shape NX NZ))
      as (r & s' & Er & _ & Hr); [by apply nodes_in_range|].
    rewrite Er in Hrun. destruct r as [?|e']; [done|].
    injection Hrun as ->.
    destruct Hr as (i & j & Xi & Eta & _ & Hrest). by exists i, j, Xi, Eta.
Qed.

Lemma grid_lookup_lt (num : Z) (k : nat) :
  (k < Z.to_nat num)%nat -> exists v : T, grid num !! k = Some v.
Proof.
  intros Hk. apply lookup_lt_is_Some_2. unfold grid.
  by rewrite linspace_samples_length.
Qed.

Lemma node_body_agree (Xb Xt Xl Xr Xb' Xt' Xl' Xr' : curve T) i j Xi Eta s :
  Xb Xi = Xb' Xi -> Xb (of_Z 0) = Xb' (of_Z 0) -> Xb (of_Z 1) = Xb' (of_Z 1) ->
  Xt Xi = Xt' Xi -> Xt (of_Z 0) = Xt' (of_Z 0) -> Xt (of_Z 1) = Xt' (of_Z 1) ->
  Xl Eta = Xl' Eta -> Xr Eta = Xr' Eta ->
  node_body Xb Xt Xl Xr i j Xi Eta s = node_body Xb' Xt' Xl' Xr' i j Xi Eta s.
Proof.
  intros Hb Hb0 Hb1 Ht Ht0 Ht1 Hl Hr. unfold node_body.
  by rewrite Hb, Hb0, Hb1, Ht, Ht0, Ht1, Hl, Hr.
Qed.

(** X4 (only the samples matter).  The call looks at the bottom and top
    curves at the samples of [xi] and at 0 and 1, and at the left and
    right curves at the samples of [eta], and nowhere else: two sets of
    curves that agree there, in value or in the exception raised, give the
    same result. *)
Theorem depends_on_samples_only
    (Xb Xt Xl Xr Xb' Xt' Xl' Xr' : curve T) (NX NZ : Z) :
  (forall u, u ∈ grid NX \/ u = of_Z 0 \/ u = of_Z 1 ->
     Xb u = Xb' u /\ Xt u = Xt' u) ->
  (forall u, u ∈ grid NZ -> Xl u = Xl' u /\ Xr u = Xr' u) ->
  generate_mesh Xb Xt Xl Xr NX NZ = generate_mesh Xb' Xt' Xl' Xr' NX NZ.
Proof.
  intros Hbt Hlr. unfold generate_mesh.
  destruct (decide (NX < 0 \/ NZ < 0)%Z) as [Hneg|Hpos].
  { by rewrite !tfi_cell_negative. }
  rewrite !tfi_cell_starts_on_zeros by lia. f_equal.
  apply for_ext. intros [i j] s [Hi Hj]%elem_of_nodes.
  destruct (grid_lookup_lt NX i Hi) as [Xi EXi].
  destruct (grid_lookup_lt NZ j Hj) as [Eta EEta].
  rewrite !(node_at_lookup _ _ _ _ _ _ _ _ Xi Eta) by done.
  apply list_elem_of_lookup_2 in EXi, EEta.
  apply node_body_agree; try apply Hbt; try apply Hlr; auto.
Qed.

Lemma nodes_empty (NX NZ : Z) : (NX = 0 \/ NZ = 0)%Z -> nodes NX NZ = [].
Proof.
  intros [-> | ->]; unfold nodes, range; [done|]. cbn [Z.to_nat seq map].
  induction (seq 0 (Z.to_nat NX)) as [|i l IH]; [done|]. by cbn.
Qed.

(** X5 (an empty grid).  With a count of zero along either axis and the
    other count not negative, the loop body never runs: no curve is
    evaluated, so the call completes even with curves that raise
    everywhere, and returns the arrays of [np.zeros], which have no entry. *)
Theorem empty_grid (Xb Xt Xl Xr : curve T) (NX NZ : Z) :
  (NX = 0 \/ NZ = 0)%Z -> (0 <= NX)%Z -> (0 <= NZ)%Z ->
  generate_mesh Xb Xt Xl Xr NX NZ
  = Ok (replicate (Z.to_nat NX) (replicate (Z.to_nat NZ) (of_Z 0)),
        replicate (Z.to_nat NX) (replicate (Z.to_nat NZ) (of_Z 0))) /\
  forall i j, entry (replicate (Z.to_nat NX) (replicate (Z.to_nat NZ) (of_Z 0 : T)))
                i j = None.
Proof.
  intros Hzero HX HZ. split.
  - unfold generate_mesh. rewrite tfi_cell_starts_on_zeros by done.
    by rewrite nodes_empty.
  - intros i j. unfold entry.
    destruct (replicate _ _ !! i) as [row|] eqn:Erow; [|done].
    apply lookup_replicate in Erow as [-> Hi].
    apply lookup_replicate_None. lia.
Qed.

(** X13 (the arrays of the logical grid).  In any arithmetic, for curves
    that never raise and counts that are not negative:
    [np.meshgrid(xi, eta)] gives [xi1] and [eta1] the shape [(NZ, NX)],
    while [X] and [Z] have the shape [(NX, NZ)]; the two pairs are indexed
    the other way round, the node stored at [X[i,j]], [Z[i,j]] being the
    value of the blending formula at the logical point
    [(xi1[j,i], eta1[j,i]) = (xi[i], eta[j])]. *)
Theorem logical_grid_is_transposed (b t l r : T -> point T) (NX NZ : Z) :
  (0 <= NX)%Z -> (0 <= NZ)%Z ->
  exists X Z : matrix T,
    generate_mesh (total b) (total t) (total l) (total r) NX NZ = Ok (X, Z) /\
    shape (Z.to_nat NX) (Z.to_nat NZ) X /\
    shape (Z.to_nat NX) (Z.to_nat NZ) Z /\
    shape (Z.to_nat NZ) (Z.to_nat NX) (fst (meshgrid (grid NX) (grid NZ))) /\
    shape (Z.to_nat NZ) (Z.to_nat NX) (snd (meshgrid (grid NX) (grid NZ))) /\
    forall i j : nat, (i < Z.to_nat NX)%nat -> (j < Z.to_nat NZ)%nat ->
      exists Xi Eta : T,
        grid NX !! i = Some Xi /\ grid NZ !! j = Some Eta /\
        entry (fst (meshgrid (grid NX) (grid NZ))) j i = Some Xi /\
        entry (snd (meshgrid (grid NX) (grid NZ))) j i = Some Eta /\
        entry X i j = Some (gordon_hall fst b t l r Xi Eta) /\
        entry Z i j = Some (gordon_hall snd b t l r Xi Eta).
Proof.
  intros HX HZ. eexists _, _.
  split; [by apply generate_mesh_total|].
  split; [apply mesh_map_grid_shape|]. split; [apply mesh_map_grid_shape|].
  assert (Hlen : forall num, length (grid num : list T) = Z.to_nat num).
  { intros num. apply linspace_samples_length. }
  unfold meshgrid. cbn [fst snd].
  split; [|split].
  - split; [by rewrite length_map|]. apply Forall_forall.
    intros row Hrow%list_elem_of_In%in_map_iff. by destruct Hrow as (? & <- & _).
  - split; [by rewrite length_map|]. apply Forall_forall.
    intros row Hrow%list_elem_of_In%in_map_iff. destruct Hrow as (? & <- & _).
    by rewrite length_map.
  - intros i j Hi Hj.
    destruct (grid_lookup_lt NX i Hi) as [Xi EXi].
    destruct (grid_lookup_lt NZ j Hj) as [Eta EEta].
    exists Xi, Eta. split; [done|]. split; [done|].
    split; [unfold entry; by rewrite lookup_map, EEta|].
    split; [unfold entry; rewrite lookup_map, EEta; cbn;
            by rewrite lookup_map, EXi|].
    split; by apply entry_mesh_map.
Qed.

End FurtherStructure.

(** ** In exact arithmetic *)

Section FurtherExact.

Implicit Types (b t l r : Qc -> point Qc).







End FurtherExact.

(** ** The further properties at concrete calls *)

Lemma arrays_after_any_run_witness :
  tfi_cell (total square_bottom) (total square_top) (total square_left)
    right_raising_at_one (-1) 2 (mkStore [[1%Qc]] [[0%Qc]])
  = (Raise ValueError, mkStore [[1%Qc]] [[0%Qc]]) /\
  store_shape 2 2
    (snd (tfi_cell (total square_bottom) (total square_top) (total square_left)
            right_raising_at_one 2 2 (mkStore [] []))).
Proof.
  split.
  - apply (arrays_after_any_run (total square_bottom) (total square_top)
             (total square_left) right_raising_at_one (-1) 2). lia.
  - apply (arrays_after_any_run (total square_bottom) (total square_top)
             (total square_left) right_raising_at_one 2 2); lia.
Defined.

Lemma first_failure_witness :
  exists s' : store Qc,
    tfi_cell (total square_bottom) (total square_top) (total square_right)
      right_raising_at_one 2 2 (mkStore [] [])
    = (Raise (EvalError 0), s') /\
    mesh_node (meshX s', meshZ s') 1 0 = Some (0%Qc, 0%Qc).
Proof.
  destruct (first_failure (total square_bottom) (total square_top)
              (total square_right) right_raising_at_one 2 2
              [(0, 0)%nat] [(1, 0)%nat; (1, 1)%nat] 0 1 (uniform 2 0) (uniform 2 1)
              (EvalError 0) (mkStore [] []))
    as (s' & E & Hnodes).
  - lia.
  - lia.
  - reflexivity.
  - intros i' j' Xi' Eta' Hin EXi' EEta'.
    apply list_elem_of_singleton in Hin. injection Hin as -> ->.
    rewrite grid_lookup in EXi', EEta' by (cbn; lia).
    injection EXi' as <-. injection EEta' as <-.
    unfold raises_at. vm_compute. tauto.
  - apply grid_lookup; cbn; lia.
  - apply grid_lookup; cbn; lia.
  - vm_compute. reflexivity.
  - exists s'. split; [exact E|].
    rewrite (Hnodes 1%nat 0%nat) by (cbn; lia).
    rewrite decide_False; [reflexivity|].
    intros Hin. apply list_elem_of_singleton in Hin. discriminate Hin.
Defined.

Lemma exception_origin_witness :
  ((2 < 0 \/ 2 < 0)%Z /\ EvalError 0 = ValueError) \/
  ((0 <= 2)%Z /\ (0 <= 2)%Z /\
   exists (i j : nat) (Xi Eta : Qc),
     grid 2 !! i = Some Xi /\ grid 2 !! j = Some Eta /\
     node_value (total square_bottom) (total square_top) (total square_left)
       right_raising_at_one Xi Eta = Raise (EvalError 0)).
Proof.
  apply (exception_origin (total square_bottom) (total square_top)
           (total square_left) right_raising_at_one 2 2 (EvalError 0)).
  vm_compute. reflexivity.
Defined.

Lemma depends_on_samples_only_witness :
  generate_mesh (total square_bottom) (total square_top)
    (total square_left) (total square_right) 3 3
  = generate_mesh bottom_inside_unit (total square_top)
      (total square_left) (total square_right) 3 3.
Proof.
  apply (depends_on_samples_only (total square_bottom) (total square_top)
           (total square_left) (total square_right)
           bottom_inside_unit (total square_top)
           (total square_left) (total square_right) 3 3).
  - intros u Hu. split; [|reflexivity].
    assert (Hin : u ∈ [0%Qc; uniform 3 1; 1%Qc]).
    { destruct Hu as [Hu | [-> | ->]].
      - apply list_elem_of_lookup_1 in Hu as [k Hk].
        pose proof (lookup_lt_Some _ _ _ Hk) as Hlt.
        unfold grid in Hlt. rewrite linspace_samples_length in Hlt.
        rewrite grid_lookup in Hk by (cbn in *; lia). injection Hk as <-.
        destruct k as [|[|[|k]]]; [| | |cbn in Hlt; lia].
        + rewrite uniform_first by lia. apply list_elem_of_here.
        + apply list_elem_of_further, list_elem_of_here.
        + change (uniform 3 2) with (uniform 3 (Z.to_nat 3 - 1)).
          rewrite (uniform_last 3) by lia.
          do 2 apply list_elem_of_further. apply list_elem_of_here.
      - apply list_elem_of_here.
      - do 2 apply list_elem_of_further. apply list_elem_of_here. }
    apply elem_of_cons in Hin as [-> | Hin]; [vm_compute; reflexivity|].
    apply elem_of_cons in Hin as [-> | Hin]; [vm_compute; reflexivity|].
    apply list_elem_of_singleton in Hin as ->. vm_compute. reflexivity.
  - intros u _. split; reflexivity.
Defined.

Lemma empty_grid_witness :
  generate_mesh always_raising always_raising always_raising always_raising 3 0
  = Ok ([[]; []; []], [[]; []; []]) /\
  generate_mesh always_raising always_raising always_raising always_raising 0 3
  = Ok ([], []).
Proof.
  split.
  - apply (empty_grid always_raising always_raising always_raising always_raising
             3 0); [right; reflexivity|lia|lia].
  - apply (empty_grid always_raising always_raising always_raising always_raising
             0 3); [left; reflexivity|lia|lia].
Defined.


Lemma logical_grid_is_transposed_witness :
  exists X Z : matrix float,
    generate_mesh (total unit_bottom) (total unit_top)
      (total unit_left) (total unit_right) 3 2 = Ok (X, Z) /\
    shape 3 2 X /\ shape 2 3 (fst (meshgrid (grid 3 : list float) (grid 2))) /\
    exists Xi Eta : float,
      entry (fst (meshgrid (grid 3 : list float) (grid 2))) 1 2 = Some Xi /\
      entry (snd (meshgrid (grid 3 : list float) (grid 2))) 1 2 = Some Eta /\
      entry X 2 1
      = Some (gordon_hall fst unit_bottom unit_top unit_left unit_right Xi Eta).
Proof.
  destruct (logical_grid_is_transposed (T := float)
              unit_bottom unit_top unit_left unit_right 3 2)
    as (X & Z & E & HX & _ & Hxi1 & _ & Hnodes); [lia..|].
  exists X, Z. split; [exact E|]. split; [exact HX|]. split; [exact Hxi1|].
  destruct (Hnodes 2%nat 1%nat) as (Xi & Eta & _ & _ & H1 & H2 & HXe & _);
    [cbn; lia..|].
  exists Xi, Eta. split; [exact H1|]. split; [exact H2|exact HXe].
Defined.
